(** * streamlit-downloader: the [Downloader] component

    A shallow embedding of
    [src/streamlit_downloader/frontend/src/Downloader.tsx] and the
    properties of its download-on-mount behaviour.

    The component is a React function component.  Its body does three
    things: it destructures [args], registers one effect with an empty
    dependency array, and returns a hidden [div].  The effect calls the
    local [async] function [triggerDownload], calls [.then()] on the
    promise it returns and then asks the host for a frame height of 0.

    The browser and the host are modelled as an explicit [World] that is
    threaded through a state-and-exception monad [M].  Every browser or
    host call that completes appends one [Event] to the world's trace, so
    that orderings can be read off the trace. *)

From Stdlib Require Import ZArith Lia.
From stdpp Require Import base option list gmap strings.

Open Scope Z_scope.
Open Scope string_scope.
Open Scope list_scope.

(* ===================================================================== *)
(** ** Data *)
(* ===================================================================== *)

(** [args.data]: "typically a string or byte-like object". *)
Inductive Payload : Type :=
  | PString (s : string)
  | PBytes (bs : list Z).

(** [props.args], destructured on line 22 of the source. *)
Record Args : Type := mkArgs {
  data : Payload;
  filename : string;
  content_type : string
}.

(** [ComponentProps] of streamlit-component-lib, restricted to the three
    fields the component destructures.  The shape of the theme object is
    declared by the library, not by this repository; it is left abstract. *)
Record ComponentProps (Theme : Type) : Type := mkProps {
  args : Args;
  disabled : bool;
  theme : option Theme
}.
Arguments mkProps {Theme} _ _ _.
Arguments args {Theme} _.
Arguments disabled {Theme} _.
Arguments theme {Theme} _.

(** What [new Blob(parts, {type})] was given: the blob parts and the
    [type] option, as passed by the caller.  [blob_type] is that option,
    not the [type] property of the resulting object: the constructor
    normalises the option, see [mime_type] below. *)
Record Blob : Type := mkBlob {
  blob_parts : list Payload;
  blob_type : string
}.

(** Object URLs ([blob:...] strings) and DOM nodes are identified by the
    number the browser allocated for them. *)
Definition ObjectURL : Type := nat.
Definition NodeId : Type := nat.

(** A DOM element together with the two anchor properties the component
    assigns. *)
Record HTMLElement : Type := mkElement {
  tagName : string;
  href : option ObjectURL;
  download : option string
}.

(** A file handed to the browser's save mechanism. *)
Record Download : Type := mkDownload {
  saved_as : string;
  saved_blob : Blob
}.

(** The browser entry points [triggerDownload] calls. *)
Inductive BrowserApi : Type :=
  | ApiNewBlob
  | ApiCreateObjectURL
  | ApiCreateElement
  | ApiAppendChild
  | ApiClick
  | ApiRemoveChild
  | ApiRevokeObjectURL.

(** JavaScript exceptions: a failure of a browser entry point, or the
    [NotFoundError] that [removeChild] raises for a node that is not a
    child. *)
Inductive Exn : Type :=
  | BrowserFailure (api : BrowserApi)
  | NotFoundError.

(** One entry per completed call, in program order. *)
Inductive Event : Type :=
  | EvNewBlob (parts : list Payload) (type : string)
  | EvCreateObjectURL (b : Blob) (u : ObjectURL)
  | EvCreateElement (tag : string) (n : NodeId)
  | EvSetHref (n : NodeId) (u : ObjectURL)
  | EvSetDownload (n : NodeId) (name : string)
  | EvAppendChild (n : NodeId)
  | EvClick (n : NodeId)
  | EvRemoveChild (n : NodeId)
  | EvRevokeObjectURL (u : ObjectURL)
  | EvSetComponentValue (v : Z)
  | EvSetFrameHeight (h : Z).

(** Messages that reach the host through the [Streamlit] object. *)
Inductive HostMsg : Type :=
  | ComponentValue (v : Z)
  | FrameHeight (h : Z).

(** A settled promise.  [triggerDownload] contains no [await], so the
    promise it returns is already settled when the call returns. *)
Inductive Promise (A : Type) : Type :=
  | Fulfilled (a : A)
  | Rejected (e : Exn).
Arguments Fulfilled {A} _.
Arguments Rejected {A} _.

(** Jobs on the microtask queue.  [p.then()] without handlers on a settled
    promise queues one reaction job that only forwards the settlement to
    the derived promise. *)
Inductive Job : Type :=
  | PassThrough (p : Promise unit).

Record World : Type := mkWorld {
  object_urls : gmap nat Blob;       (* the document's blob URL store *)
  next_url : nat;
  nodes : gmap nat HTMLElement;      (* allocated elements *)
  next_node : nat;
  body : list NodeId;                (* children of document.body *)
  downloads : list Download;         (* files handed to the save flow *)
  trace : list Event;
  microtasks : list Job;
  unhandled : list Exn               (* unhandled promise rejections *)
}.

Definition empty_world : World :=
  mkWorld ∅ 0%nat ∅ 0%nat [] [] [] [] [].

(** Field updates. *)
Definition set_object_urls (f : gmap nat Blob → gmap nat Blob) (w : World) : World :=
  mkWorld (f (object_urls w)) (next_url w) (nodes w) (next_node w) (body w)
          (downloads w) (trace w) (microtasks w) (unhandled w).
Definition set_next_url (k : nat) (w : World) : World :=
  mkWorld (object_urls w) k (nodes w) (next_node w) (body w)
          (downloads w) (trace w) (microtasks w) (unhandled w).
Definition set_nodes (f : gmap nat HTMLElement → gmap nat HTMLElement) (w : World) : World :=
  mkWorld (object_urls w) (next_url w) (f (nodes w)) (next_node w) (body w)
          (downloads w) (trace w) (microtasks w) (unhandled w).
Definition set_next_node (k : nat) (w : World) : World :=
  mkWorld (object_urls w) (next_url w) (nodes w) k (body w)
          (downloads w) (trace w) (microtasks w) (unhandled w).
Definition set_body (f : list NodeId → list NodeId) (w : World) : World :=
  mkWorld (object_urls w) (next_url w) (nodes w) (next_node w) (f (body w))
          (downloads w) (trace w) (microtasks w) (unhandled w).
Definition add_download (d : Download) (w : World) : World :=
  mkWorld (object_urls w) (next_url w) (nodes w) (next_node w) (body w)
          (downloads w ++ [d]) (trace w) (microtasks w) (unhandled w).
Definition emit (e : Event) (w : World) : World :=
  mkWorld (object_urls w) (next_url w) (nodes w) (next_node w) (body w)
          (downloads w) (trace w ++ [e]) (microtasks w) (unhandled w).
Definition enqueue (j : Job) (w : World) : World :=
  mkWorld (object_urls w) (next_url w) (nodes w) (next_node w) (body w)
          (downloads w) (trace w) (microtasks w ++ [j]) (unhandled w).
Definition set_microtasks (q : list Job) (w : World) : World :=
  mkWorld (object_urls w) (next_url w) (nodes w) (next_node w) (body w)
          (downloads w) (trace w) q (unhandled w).
Definition add_unhandled (e : Exn) (w : World) : World :=
  mkWorld (object_urls w) (next_url w) (nodes w) (next_node w) (body w)
          (downloads w) (trace w) (microtasks w) (unhandled w ++ [e]).

(* ===================================================================== *)
(** ** The monad of JavaScript statements *)
(* ===================================================================== *)

Inductive Outcome (A : Type) : Type :=
  | Ok (a : A)
  | Throw (e : Exn).
Arguments Ok {A} _.
Arguments Throw {A} _.

Definition M (A : Type) : Type := World → Outcome A * World.

Definition ret {A} (a : A) : M A := fun w => (Ok a, w).

Definition throw {A} (e : Exn) : M A := fun w => (Throw e, w).

Definition bind {A B} (m : M A) (k : A → M B) : M B :=
  fun w =>
    match m w with
    | (Ok a, w') => k a w'
    | (Throw e, w') => (Throw e, w')
    end.

Definition modify (f : World → World) : M unit := fun w => (Ok tt, f w).

Notation "x <- m ;; k" := (bind m (fun x => k))
  (at level 20, m at level 99, k at level 200, only parsing).
Notation "m ;; k" := (bind m (fun _ => k))
  (at level 100, k at level 200, only parsing).

Definition exec {A} (m : M A) (w : World) : World := snd (m w).
Definition result {A} (m : M A) (w : World) : Outcome A := fst (m w).

(** The host's view of a trace. *)
Definition host_msg (e : Event) : option HostMsg :=
  match e with
  | EvSetComponentValue v => Some (ComponentValue v)
  | EvSetFrameHeight h => Some (FrameHeight h)
  | _ => None
  end.

Definition host_messages (t : list Event) : list HostMsg := omap host_msg t.

Definition is_click (e : Event) : bool :=
  match e with EvClick _ => true | _ => false end.

Definition clicks (t : list Event) : nat := length (filter is_click t).

(* ===================================================================== *)
(** ** The browser and the host *)
(* ===================================================================== *)

Section Browser.

(** Which browser entry points fail.  The component's design assumes that
    none does; the oracle makes that assumption explicit and lets the
    failure behaviour be stated. *)
Variable throws : BrowserApi → bool.

(** A browser call either fails before it has any effect or runs. *)
Definition guarded {A} (api : BrowserApi) (m : M A) : M A :=
  if throws api then throw (BrowserFailure api) else m.

(** [new Blob(parts, { type })].  The returned record keeps the [type]
    option as given; the MIME type of the object is [mime_type]. *)
Definition new_Blob (parts : list Payload) (type : string) : M Blob :=
  guarded ApiNewBlob
    (modify (emit (EvNewBlob parts type)) ;;
     ret (mkBlob parts type)).

(** [URL.createObjectURL(blob)]: registers the blob under a new URL. *)
Definition URL_createObjectURL (b : Blob) : M ObjectURL :=
  guarded ApiCreateObjectURL
    (fun w =>
       let u := next_url w in
       (Ok u,
        emit (EvCreateObjectURL b u)
          (set_next_url (S u) (set_object_urls (insert u b) w)))).

(** [document.createElement(tag)]: a new, detached element. *)
Definition document_createElement (tag : string) : M NodeId :=
  guarded ApiCreateElement
    (fun w =>
       let n := next_node w in
       (Ok n,
        emit (EvCreateElement tag n)
          (set_next_node (S n)
             (set_nodes (insert n (mkElement tag None None)) w)))).

(** [link.href = url] *)
Definition set_href (n : NodeId) (u : ObjectURL) : M unit :=
  modify (fun w =>
    emit (EvSetHref n u)
      (set_nodes (alter (fun el => mkElement (tagName el) (Some u) (download el)) n) w)).

(** [link.download = filename] *)
Definition set_download (n : NodeId) (name : string) : M unit :=
  modify (fun w =>
    emit (EvSetDownload n name)
      (set_nodes (alter (fun el => mkElement (tagName el) (href el) (Some name)) n) w)).

(** [document.body.appendChild(node)]: the node becomes the last child of
    the body (a node that is already a child is moved). *)
Definition document_body_appendChild (n : NodeId) : M unit :=
  guarded ApiAppendChild
    (modify (fun w =>
       emit (EvAppendChild n)
         (set_body (fun l => filter (fun m => m ≠ n) l ++ [n]) w))).

(** What activating an element hands to the save flow: an anchor with a
    [download] attribute whose [href] is a live object URL saves that
    URL's blob under the attribute's value. *)
Definition activation (w : World) (n : NodeId) : option Download :=
  el ← nodes w !! n;
  if bool_decide (tagName el = "a") then
    name ← download el;
    u ← href el;
    b ← object_urls w !! u;
    Some (mkDownload name b)
  else None.

(** [link.click()] *)
Definition click (n : NodeId) : M unit :=
  guarded ApiClick
    (modify (fun w =>
       emit (EvClick n)
         (match activation w n with
          | Some d => add_download d w
          | None => w
          end))).

(** [document.body.removeChild(node)]: raises [NotFoundError] when the
    node is not a child of the body. *)
Definition document_body_removeChild (n : NodeId) : M unit :=
  guarded ApiRemoveChild
    (fun w =>
       if bool_decide (n ∈ body w) then
         (Ok tt, emit (EvRemoveChild n) (set_body (filter (fun m => m ≠ n)) w))
       else (Throw NotFoundError, w)).

(** [URL.revokeObjectURL(url)] *)
Definition URL_revokeObjectURL (u : ObjectURL) : M unit :=
  guarded ApiRevokeObjectURL
    (modify (fun w => emit (EvRevokeObjectURL u) (set_object_urls (delete u) w))).

(** [Streamlit.setComponentValue(v)] *)
Definition Streamlit_setComponentValue (v : Z) : M unit :=
  modify (emit (EvSetComponentValue v)).

(** [Streamlit.setFrameHeight(h)].  The event records the component's
    request.  The library forwards a height to the host only when it
    differs from the last height it sent in this document, so when several
    mounts share a document only the first request for 0 is delivered;
    statements about frame heights are therefore made per mount. *)
Definition Streamlit_setFrameHeight (h : Z) : M unit :=
  modify (emit (EvSetFrameHeight h)).

(* --------------------------------------------------------------------- *)
(** *** Promises *)

(** Calling an [async] function whose body has no [await]: the body runs
    to its end (or to the first exception) during the call, and the call
    itself returns normally with a settled promise. *)
Definition async {A} (body : M A) : M (Promise A) :=
  fun w =>
    match body w with
    | (Ok a, w') => (Ok (Fulfilled a), w')
    | (Throw e, w') => (Ok (Rejected e), w')
    end.

(** [p.then()] with no handlers. *)
Definition then_ (p : Promise unit) : M unit :=
  modify (enqueue (PassThrough p)).

(** A pass-through reaction settles the derived promise like the original
    one.  The derived promise has no handlers either, so a rejection ends
    as an unhandled rejection. *)
Definition run_job (j : Job) (w : World) : World :=
  match j with
  | PassThrough (Fulfilled _) => w
  | PassThrough (Rejected e) => add_unhandled e w
  end.

(** The microtask checkpoint after a callback: run the queued jobs in
    order and leave the queue empty. *)
Definition flush_microtasks : M unit :=
  modify (fun w => foldl (fun w' j => run_job j w') (set_microtasks [] w) (microtasks w)).

(* ===================================================================== *)
(** ** The component *)
(* ===================================================================== *)

(** [triggerDownload], lines 25-36. *)
Definition triggerDownload (a : Args) : M (Promise unit) :=
  async
    (blob <- new_Blob [data a] (content_type a) ;;
     url <- URL_createObjectURL blob ;;
     link <- document_createElement "a" ;;
     set_href link url ;;
     set_download link (filename a) ;;
     document_body_appendChild link ;;
     click link ;;
     document_body_removeChild link ;;
     URL_revokeObjectURL url ;;
     Streamlit_setComponentValue 1).

(** The callback given to [useEffect], lines 38-41. *)
Definition effect_callback (a : Args) : M unit :=
  p <- triggerDownload a ;;
  then_ p ;;
  Streamlit_setFrameHeight 0.

End Browser.

(** CSS values as they appear in a React style object. *)
Inductive CssValue : Type :=
  | CssKeyword (s : string)
  | CssNumber (n : Z).

#[warnings="-register-all"]
Inductive ReactElement : Type :=
  | JsxElement (tag : string) (style : list (string * CssValue))
               (children : list ReactElement).

(** The JSX returned on lines 43-45. *)
Definition hidden_div : ReactElement :=
  JsxElement "div"
    [("visibility", CssKeyword "hidden");
     ("height", CssNumber 0);
     ("width", CssNumber 0);
     ("padding", CssNumber 0);
     ("margin", CssNumber 0)]
    [].

(** What one call of a function component yields: the element it returns
    and the effect it registered.  The component registers a single
    effect, with the dependency array [[]]. *)
Record Rendered : Type := mkRendered {
  element : ReactElement;
  mount_effect : M unit
}.

(** [Downloader], lines 20-46. *)
Definition Downloader {Theme} (throws : BrowserApi → bool)
    (props : ComponentProps Theme) : Rendered :=
  let '(mkProps a _ _) := props in
  mkRendered hidden_div (effect_callback throws a).

(* --------------------------------------------------------------------- *)
(** *** React's treatment of the component *)

(** Mounting: the component function is called, its element is committed
    and its effect runs, followed by the microtask checkpoint. *)
Definition mount {Theme} (throws : BrowserApi → bool)
    (props : ComponentProps Theme) : M ReactElement :=
  let r := Downloader throws props in
  mount_effect r ;;
  flush_microtasks ;;
  ret (element r).

(** Re-rendering a mounted component: the function is called again, and an
    effect whose dependency array is empty is not run again. *)
Definition update {Theme} (throws : BrowserApi → bool)
    (props : ComponentProps Theme) : M ReactElement :=
  let r := Downloader throws props in
  ret (element r).

(** A mount followed by any number of re-renders, each with the props the
    host supplies at that time; the last element is what is on screen. *)
Fixpoint rerenders {Theme} (throws : BrowserApi → bool)
    (later : list (ComponentProps Theme)) (shown : ReactElement) : M ReactElement :=
  match later with
  | [] => ret shown
  | p :: ps => el <- update throws p ;; rerenders throws ps el
  end.

Definition lifetime {Theme} (throws : BrowserApi → bool)
    (first : ComponentProps Theme) (later : list (ComponentProps Theme)) : M ReactElement :=
  el <- mount throws first ;;
  rerenders throws later el.

(* --------------------------------------------------------------------- *)
(** *** Layout of the returned element *)

Definition style_of (el : ReactElement) : list (string * CssValue) :=
  match el with JsxElement _ s _ => s end.

Definition children_of (el : ReactElement) : list ReactElement :=
  match el with JsxElement _ _ c => c end.

Fixpoint css_lookup (prop : string) (s : list (string * CssValue)) : option CssValue :=
  match s with
  | [] => None
  | (k, v) :: rest => if bool_decide (k = prop) then Some v else css_lookup prop rest
  end.

(** A numeric style value is a length in pixels. *)
Definition css_px (prop : string) (el : ReactElement) : option Z :=
  match css_lookup prop (style_of el) with
  | Some (CssNumber n) => Some n
  | _ => None
  end.

(** Extent of the margin box of a childless block along one axis: the
    content size plus padding and margin on both sides. *)
Definition box_extent (size_prop : string) (el : ReactElement) : option Z :=
  sz ← css_px size_prop el;
  pad ← css_px "padding" el;
  mar ← css_px "margin" el;
  Some (sz + 2 * pad + 2 * mar).

Definition painted (el : ReactElement) : bool :=
  match css_lookup "visibility" (style_of el) with
  | Some (CssKeyword k) => negb (bool_decide (k = "hidden"))
  | _ => true
  end.

(** An element takes no visible space when it has no children, is not
    painted, and its margin box is 0 by 0. *)
Definition zero_visible_space (el : ReactElement) : Prop :=
  children_of el = [] ∧ painted el = false ∧
  box_extent "width" el = Some 0 ∧ box_extent "height" el = Some 0.

(** The browser behaves as the design assumes. *)
Definition reliable (throws : BrowserApi → bool) : Prop :=
  ∀ api, throws api = false.

Definition no_failures : BrowserApi → bool := fun _ => false.

(** The events of one complete run of [triggerDownload] that allocated
    object URL [u] and node [n]. *)
Definition download_events (a : Args) (u : ObjectURL) (n : NodeId) : list Event :=
  [ EvNewBlob [data a] (content_type a);
    EvCreateObjectURL (mkBlob [data a] (content_type a)) u;
    EvCreateElement "a" n;
    EvSetHref n u;
    EvSetDownload n (filename a);
    EvAppendChild n;
    EvClick n;
    EvRemoveChild n;
    EvRevokeObjectURL u;
    EvSetComponentValue 1 ].

(** The world after one complete run of [triggerDownload] from [w]. *)
Definition after_download (a : Args) (w : World) : World :=
  let u := next_url w in
  let n := next_node w in
  mkWorld
    (delete u (object_urls w))
    (S u)
    (<[n := mkElement "a" (Some u) (Some (filename a))]> (nodes w))
    (S n)
    (filter (fun m => m ≠ n) (body w))
    (downloads w ++ [mkDownload (filename a) (mkBlob [data a] (content_type a))])
    (trace w ++ download_events a u n)
    (microtasks w)
    (unhandled w).

(** The world after the effect callback, before the microtask checkpoint. *)
Definition after_effect (p : Promise unit) (w1 : World) : World :=
  emit (EvSetFrameHeight 0) (enqueue (PassThrough p) w1).

(** The frame heights the host was asked for. *)
Definition frame_heights (ms : list HostMsg) : list Z :=
  omap (fun m => match m with FrameHeight h => Some h | _ => None end) ms.

(** Allocation counters run ahead of everything that is live: no object
    URL at or above [next_url] is registered, and no child of the body is
    numbered at or above [next_node]. *)
Definition well_formed (w : World) : Prop :=
  (∀ u, (next_url w ≤ u)%nat → object_urls w !! u = None) ∧
  (∀ n, n ∈ body w → (n < next_node w)%nat).

(** The events added to the trace between two worlds. *)
Definition new_events (w w' : World) : list Event :=
  drop (length (trace w)) (trace w').

(** Component instances mounted one after the other, as when the host
    re-runs its script and embeds the component again. *)
Fixpoint mounts {Theme} (throws : BrowserApi → bool)
    (ps : list (ComponentProps Theme)) : M unit :=
  match ps with
  | [] => ret tt
  | p :: rest => mount throws p ;; mounts throws rest
  end.

Definition all_apis : list BrowserApi :=
  [ApiNewBlob; ApiCreateObjectURL; ApiCreateElement; ApiAppendChild;
   ApiClick; ApiRemoveChild; ApiRevokeObjectURL].

(** Some browser call of the operation fails. *)
Definition fails_somewhere (throws : BrowserApi → bool) : bool :=
  existsb throws all_apis.


(* --------------------------------------------------------------------- *)
(** *** The MIME type of a blob *)

(** Characters U+0020 to U+007E. *)
Definition in_type_range (c : Ascii.ascii) : bool :=
  let n := Ascii.nat_of_ascii c in
  ((32 <=? n) && (n <=? 126))%nat.

Definition is_ascii_upper (c : Ascii.ascii) : bool :=
  let n := Ascii.nat_of_ascii c in
  ((65 <=? n) && (n <=? 90))%nat.

Definition ascii_lowercase (c : Ascii.ascii) : Ascii.ascii :=
  if is_ascii_upper c then Ascii.ascii_of_nat (Ascii.nat_of_ascii c + 32) else c.

Fixpoint string_forall (p : Ascii.ascii → bool) (s : string) : bool :=
  match s with
  | EmptyString => true
  | String c rest => p c && string_forall p rest
  end.

Fixpoint string_map (f : Ascii.ascii → Ascii.ascii) (s : string) : string :=
  match s with
  | EmptyString => EmptyString
  | String c rest => String (f c) (string_map f rest)
  end.

(** What the Blob constructor makes of its [type] option: the empty
    string when the option has a character outside U+0020..U+007E,
    otherwise the option in ASCII lower case. *)
Definition normalise_type (t : string) : string :=
  if string_forall in_type_range t then string_map ascii_lowercase t else "".

(** The [type] property of a blob: its MIME type. *)
Definition mime_type (b : Blob) : string := normalise_type (blob_type b).

(** Printable ASCII without upper-case letters. *)
Definition already_normal (t : string) : bool :=
  string_forall (fun c => in_type_range c && negb (is_ascii_upper c)) t.

(** The component values among the messages to the host. *)
Definition component_values (ms : list HostMsg) : list Z :=
  omap (fun m => match m with ComponentValue v => Some v | _ => None end) ms.

(** Sample inputs: a CSV payload, and a browser in which [click] fails. *)
Definition csv_args : Args := mkArgs (PString "a,b") "out.csv" "text/csv".
Definition csv_props : ComponentProps unit := mkProps csv_args false None.
Definition click_fails (api : BrowserApi) : bool :=
  match api with ApiClick => true | _ => false end.

(** The first browser call, in program order, that fails. *)
Definition first_failure (throws : BrowserApi → bool) : option BrowserApi :=
  List.find throws all_apis.

(** How many steps of [triggerDownload] precede each browser call (the
    two property assignments sit between [createElement] and
    [appendChild]). *)
Definition steps_before (api : BrowserApi) : nat :=
  match api with
  | ApiNewBlob => 0
  | ApiCreateObjectURL => 1
  | ApiCreateElement => 2
  | ApiAppendChild => 5
  | ApiClick => 6
  | ApiRemoveChild => 7
  | ApiRevokeObjectURL => 8
  end%nat.

Definition steps_done (throws : BrowserApi → bool) : nat :=
  match first_failure throws with
  | Some api => steps_before api
  | None => 10%nat
  end.

(** The file one run of [triggerDownload] hands to the save flow. *)
Definition saved_file (a : Args) : Download :=
  mkDownload (filename a) (mkBlob [data a] (content_type a)).

(** The world in which [triggerDownload] stops when [api] is the first
    call to fail. *)
Definition stopped_at (api : BrowserApi) (a : Args) (w : World) : World :=
  let u := next_url w in
  let n := next_node w in
  let blob := mkBlob [data a] (content_type a) in
  let anchor := mkElement "a" (Some u) (Some (filename a)) in
  let tr := trace w ++ take (steps_before api) (download_events a u n) in
  let attached := filter (fun m => m ≠ n) (body w) ++ [n] in
  match api with
  | ApiNewBlob | ApiCreateObjectURL =>
      mkWorld (object_urls w) u (nodes w) n (body w)
              (downloads w) tr (microtasks w) (unhandled w)
  | ApiCreateElement =>
      mkWorld (<[u := blob]> (object_urls w)) (S u) (nodes w) n (body w)
              (downloads w) tr (microtasks w) (unhandled w)
  | ApiAppendChild =>
      mkWorld (<[u := blob]> (object_urls w)) (S u) (<[n := anchor]> (nodes w)) (S n)
              (body w) (downloads w) tr (microtasks w) (unhandled w)
  | ApiClick =>
      mkWorld (<[u := blob]> (object_urls w)) (S u) (<[n := anchor]> (nodes w)) (S n)
              attached (downloads w) tr (microtasks w) (unhandled w)
  | ApiRemoveChild =>
      mkWorld (<[u := blob]> (object_urls w)) (S u) (<[n := anchor]> (nodes w)) (S n)
              attached (downloads w ++ [saved_file a]) tr (microtasks w) (unhandled w)
  | ApiRevokeObjectURL =>
      mkWorld (<[u := blob]> (object_urls w)) (S u) (<[n := anchor]> (nodes w)) (S n)
              (filter (fun m => m ≠ n) (body w))
              (downloads w ++ [saved_file a]) tr (microtasks w) (unhandled w)
  end.

(** The world in which [triggerDownload] returns. *)
Definition settled_world (throws : BrowserApi → bool) (a : Args) (w : World) : World :=
  match first_failure throws with
  | None => after_download a w
  | Some api => stopped_at api a w
  end.

(** A browser in which only [revokeObjectURL] fails. *)
Definition revoke_fails (api : BrowserApi) : bool :=
  match api with ApiRevokeObjectURL => true | _ => false end.

(** A browser in which only [new Blob] fails. *)
Definition blob_fails (api : BrowserApi) : bool :=
  match api with ApiNewBlob => true | _ => false end.

(* ===================================================================== *)
(** ** Basic facts *)
(* ===================================================================== *)

Lemma filter_ne_snoc (n : nat) (l : list nat) :
  filter (fun m => m ≠ n) (filter (fun m => m ≠ n) l ++ [n]) = filter (fun m => m ≠ n) l.
Proof.
  rewrite filter_app, list_filter_filter.
  rewrite (filter_cons_False _ n []) by (intros H; apply H; reflexivity).
  rewrite filter_nil, app_nil_r.
  apply list_filter_iff. intros x. tauto.
Qed.

Lemma filter_ne_absent (n : nat) (l : list nat) :
  n ∉ l → filter (fun m => m ≠ n) l = l.
Proof.
  intros Hn. induction l as [|x l IH]; [reflexivity|].
  rewrite filter_cons_True.
  - f_equal. apply IH. intros H. apply Hn. right. exact H.
  - intros ->. apply Hn. left.
Qed.

Lemma appended_is_child (n : nat) (l : list nat) :
  n ∈ filter (fun m => m ≠ n) l ++ [n].
Proof. apply elem_of_app. right. apply list_elem_of_singleton. reflexivity. Qed.

Section Facts.

Variable throws : BrowserApi → bool.

(** The anchor is complete and its URL is live when it is clicked. *)
Lemma activation_ready (a : Args) (ou : gmap nat Blob) (nd : gmap nat HTMLElement)
    (u n nu nn : nat) (b : Blob) bd dl tr mt uh :
  activation
    (mkWorld (<[u := b]> ou) nu
       (alter (fun el => mkElement (tagName el) (href el) (Some (filename a))) n
          (alter (fun el => mkElement (tagName el) (Some u) (download el)) n
             (<[n := mkElement "a" None None]> nd)))
       nn bd dl tr mt uh) n
  = Some (mkDownload (filename a) b).
Proof.
  unfold activation. cbn [nodes object_urls].
  rewrite !lookup_alter_eq, lookup_insert_eq. cbn.
  rewrite lookup_insert_eq. reflexivity.
Qed.

Lemma anchor_final (a : Args) (nd : gmap nat HTMLElement) (u n : nat) :
  alter (fun el => mkElement (tagName el) (href el) (Some (filename a))) n
    (alter (fun el => mkElement (tagName el) (Some u) (download el)) n
       (<[n := mkElement "a" None None]> nd))
  = <[n := mkElement "a" (Some u) (Some (filename a))]> nd.
Proof. rewrite !alter_insert_eq. reflexivity. Qed.

(** With a browser that does not fail, [triggerDownload] runs to its end
    and returns a fulfilled promise. *)
Lemma triggerDownload_reliable (a : Args) (w : World) :
  reliable throws →
  triggerDownload throws a w = (Ok (Fulfilled tt), after_download a w).
Proof.
  intros Hok. unfold triggerDownload, async, bind, new_Blob, URL_createObjectURL,
    document_createElement, document_body_appendChild, click,
    document_body_removeChild, URL_revokeObjectURL, guarded.
  rewrite !Hok.
  destruct w as [ou nu nd nn bd dl tr mt uh].
  cbv beta iota zeta delta
    [bind ret modify set_href set_download Streamlit_setComponentValue
     emit set_object_urls set_next_url set_nodes set_next_node
     set_body object_urls next_url nodes next_node body downloads trace
     microtasks unhandled].
  rewrite activation_ready.
  cbv beta iota zeta delta
    [add_download object_urls next_url nodes next_node body
     downloads trace microtasks unhandled].
  rewrite (bool_decide_true _ (appended_is_child nn bd)).
  unfold after_download, download_events.
  cbv beta iota zeta delta
    [object_urls next_url nodes next_node body
     downloads trace microtasks unhandled].
  rewrite filter_ne_snoc, delete_insert_eq, anchor_final.
  repeat rewrite <- app_assoc. reflexivity.
Qed.

(** [triggerDownload] as a function of which call fails first.  The call
    never throws: it returns a promise.  The promise is fulfilled exactly
    when the whole body ran; otherwise it is rejected with the failure of
    a browser call, only events before the failing call were produced,
    and the last two steps (revoking the URL, telling the host) were not
    reached. *)
Lemma triggerDownload_settles (a : Args) (w : World) :
  ∃ p w' k,
    triggerDownload throws a w = (Ok p, w') ∧
    trace w' = trace w ++ take k (download_events a (next_url w) (next_node w)) ∧
    microtasks w' = microtasks w ∧
    unhandled w' = unhandled w ∧
    match p with
    | Fulfilled _ => reliable throws ∧ w' = after_download a w ∧ k = 10%nat
    | Rejected e => (∃ api, e = BrowserFailure api ∧ throws api = true) ∧ (k ≤ 8)%nat
    end.
Proof.
  destruct (throws ApiNewBlob) eqn:E1;
  [|destruct (throws ApiCreateObjectURL) eqn:E2;
  [|destruct (throws ApiCreateElement) eqn:E3;
  [|destruct (throws ApiAppendChild) eqn:E4;
  [|destruct (throws ApiClick) eqn:E5;
  [|destruct (throws ApiRemoveChild) eqn:E6;
  [|destruct (throws ApiRevokeObjectURL) eqn:E7]]]]]].
  8: {
    assert (Hok : reliable throws) by (intros []; assumption).
    exists (Fulfilled tt), (after_download a w), 10%nat.
    rewrite (triggerDownload_reliable a w Hok).
    repeat split; try reflexivity. exact Hok.
  }
  all: destruct w as [ou nu nd nn bd dl tr mt uh];
    unfold triggerDownload, async, new_Blob, URL_createObjectURL,
      document_createElement, document_body_appendChild, click,
      document_body_removeChild, URL_revokeObjectURL, guarded;
    rewrite ?E1, ?E2, ?E3, ?E4, ?E5, ?E6, ?E7;
    cbv beta iota zeta delta
      [bind ret throw modify set_href set_download emit set_object_urls
       set_next_url set_nodes set_next_node set_body object_urls next_url
       nodes next_node body downloads trace microtasks unhandled];
    rewrite ?activation_ready;
    cbv beta iota zeta delta
      [add_download object_urls next_url nodes next_node body
       downloads trace microtasks unhandled];
    rewrite ?(bool_decide_true _ (appended_is_child nn bd));
    cbv beta iota zeta delta
      [emit set_object_urls set_body object_urls next_url nodes next_node body
       downloads trace microtasks unhandled].
  - eexists _, _, 0%nat. split; [reflexivity|]. cbn [trace microtasks unhandled take].
    rewrite app_nil_r. repeat split; eauto; lia.
  - eexists _, _, 1%nat. split; [reflexivity|].
    cbn [trace microtasks unhandled take download_events].
    repeat rewrite <- app_assoc. repeat split; eauto; lia.
  - eexists _, _, 2%nat. split; [reflexivity|].
    cbn [trace microtasks unhandled take download_events].
    repeat rewrite <- app_assoc. repeat split; eauto; lia.
  - eexists _, _, 5%nat. split; [reflexivity|].
    cbn [trace microtasks unhandled take download_events].
    repeat rewrite <- app_assoc. repeat split; eauto; lia.
  - eexists _, _, 6%nat. split; [reflexivity|].
    cbn [trace microtasks unhandled take download_events].
    repeat rewrite <- app_assoc. repeat split; eauto; lia.
  - eexists _, _, 7%nat. split; [reflexivity|].
    cbn [trace microtasks unhandled take download_events].
    repeat rewrite <- app_assoc. repeat split; eauto; lia.
  - eexists _, _, 8%nat. split; [reflexivity|].
    cbn [trace microtasks unhandled take download_events].
    repeat rewrite <- app_assoc. repeat split; eauto; lia.
Qed.

(** The state after the effect callback, given how the download settled. *)
Lemma effect_callback_eq (a : Args) (w : World) (p : Promise unit) (w1 : World) :
  triggerDownload throws a w = (Ok p, w1) →
  effect_callback throws a w
  = (Ok tt, emit (EvSetFrameHeight 0) (enqueue (PassThrough p) w1)).
Proof.
  intros H. unfold effect_callback, bind, then_, Streamlit_setFrameHeight, modify.
  rewrite H. reflexivity.
Qed.

(** Running queued jobs touches only the queue and the list of unhandled
    rejections. *)
Lemma run_jobs_frame (q : list Job) (w : World) :
  let w' := foldl (fun w' j => run_job j w') w q in
  trace w' = trace w ∧ downloads w' = downloads w ∧ body w' = body w ∧
  object_urls w' = object_urls w ∧ nodes w' = nodes w ∧
  next_url w' = next_url w ∧ next_node w' = next_node w ∧
  microtasks w' = microtasks w.
Proof.
  revert w. induction q as [|j q IH]; intros w; cbn [foldl].
  - repeat split.
  - destruct (IH (run_job j w)) as (H1 & H2 & H3 & H4 & H5 & H6 & H7 & H8).
    cbv zeta. rewrite H1, H2, H3, H4, H5, H6, H7, H8.
    destruct j as [[[]|e]]; repeat split.
Qed.

Lemma run_jobs_unhandled_snoc (q : list Job) (e : Exn) (w : World) :
  unhandled (foldl (fun w' j => run_job j w') w (q ++ [PassThrough (Rejected e)]))
  = unhandled (foldl (fun w' j => run_job j w') w q) ++ [e].
Proof. rewrite foldl_app. reflexivity. Qed.

Lemma run_jobs_unhandled_fulfilled (q : list Job) (w : World) :
  unhandled (foldl (fun w' j => run_job j w') w (q ++ [PassThrough (Fulfilled tt)]))
  = unhandled (foldl (fun w' j => run_job j w') w q).
Proof. rewrite foldl_app. reflexivity. Qed.

Lemma flush_frame (w : World) :
  let w' := exec flush_microtasks w in
  result flush_microtasks w = Ok tt ∧
  trace w' = trace w ∧ downloads w' = downloads w ∧ body w' = body w ∧
  object_urls w' = object_urls w ∧ nodes w' = nodes w ∧
  next_url w' = next_url w ∧ next_node w' = next_node w ∧
  microtasks w' = [].
Proof.
  unfold flush_microtasks, modify, exec, result. cbn [fst snd].
  destruct (run_jobs_frame (microtasks w) (set_microtasks [] w))
    as (H1 & H2 & H3 & H4 & H5 & H6 & H7 & H8).
  cbv zeta. rewrite H1, H2, H3, H4, H5, H6, H7, H8. repeat split.
Qed.

End Facts.

(* ===================================================================== *)
(** ** Mounting and re-rendering *)
(* ===================================================================== *)

Section Lifecycle.

Context {Theme : Type}.
Variable throws : BrowserApi → bool.

Lemma mount_eq (props : ComponentProps Theme) (w : World) (p : Promise unit) (w1 : World) :
  triggerDownload throws (args props) w = (Ok p, w1) →
  mount throws props w = (Ok hidden_div, exec flush_microtasks (after_effect p w1)).
Proof.
  intros H. destruct props as [a d t]. cbn [args] in H.
  unfold mount, Downloader. cbn [mount_effect element].
  unfold bind. rewrite (effect_callback_eq throws a w p w1 H).
  reflexivity.
Qed.

Lemma update_eq (props : ComponentProps Theme) (w : World) :
  update throws props w = (Ok hidden_div, w).
Proof. destruct props. reflexivity. Qed.

Lemma rerenders_eq (later : list (ComponentProps Theme)) (w : World) :
  rerenders throws later hidden_div w = (Ok hidden_div, w).
Proof.
  induction later as [|p ps IH]; [reflexivity|].
  cbn [rerenders]. unfold bind. rewrite update_eq. exact IH.
Qed.

(** Re-renders change nothing: a component's lifetime leaves the world
    where its mount left it, and shows the hidden [div] throughout. *)
Lemma lifetime_eq (first : ComponentProps Theme) (later : list (ComponentProps Theme))
    (w : World) :
  lifetime throws first later w = (Ok hidden_div, exec (mount throws first) w).
Proof.
  destruct (triggerDownload_settles throws (args first) w) as (p & w1 & k & H & _).
  unfold lifetime, bind, exec. rewrite (mount_eq first w p w1 H).
  cbn [snd]. apply rerenders_eq.
Qed.

(** The trace of a mount: the events of the download up to the first
    failing call, then the frame-height request. *)
Lemma mount_trace (props : ComponentProps Theme) (w : World) :
  ∃ k, trace (exec (mount throws props) w)
       = trace w ++ take k (download_events (args props) (next_url w) (next_node w))
                 ++ [EvSetFrameHeight 0] ∧
       (k ≤ 10)%nat ∧
       (fails_somewhere throws = false → k = 10%nat) ∧
       (fails_somewhere throws = true → (k ≤ 8)%nat).
Proof.
  destruct (triggerDownload_settles throws (args props) w)
    as (p & w1 & k & H & Ht & _ & _ & Hp).
  exists k. unfold exec. rewrite (mount_eq props w p w1 H). cbn [snd].
  destruct (flush_frame (after_effect p w1)) as (_ & Hf & _).
  cbv zeta in Hf. rewrite Hf. unfold after_effect. cbn [trace emit enqueue].
  rewrite Ht, <- app_assoc. split; [reflexivity|].
  destruct p as [[]|e].
  - destruct Hp as (Hok & _ & ->). split; [lia|]. split; [reflexivity|].
    unfold fails_somewhere, all_apis. cbn [existsb]. rewrite !Hok. discriminate.
  - destruct Hp as ((api & _ & Hapi) & Hk). split; [lia|]. split; [|intros _; exact Hk].
    unfold fails_somewhere, all_apis. cbn [existsb].
    destruct api; rewrite Hapi; rewrite ?orb_true_r; cbn; discriminate.
Qed.

Lemma new_events_app (w w' : World) (d : list Event) :
  trace w' = trace w ++ d → new_events w w' = d.
Proof. intros H. unfold new_events. rewrite H. apply drop_app_length. Qed.

(** With a browser that does not fail, a mount is the download followed
    by the frame-height request; the reaction job queued by [.then()] does
    nothing. *)
Lemma mount_reliable (props : ComponentProps Theme) (w : World) :
  reliable throws →
  let w1 := after_download (args props) w in
  let w' := exec (mount throws props) w in
  trace w' = trace w1 ++ [EvSetFrameHeight 0] ∧
  downloads w' = downloads w1 ∧ body w' = body w1 ∧
  object_urls w' = object_urls w1 ∧ nodes w' = nodes w1 ∧
  next_url w' = next_url w1 ∧ next_node w' = next_node w1.
Proof.
  intros Hok. cbv zeta. unfold exec.
  rewrite (mount_eq props w _ _ (triggerDownload_reliable throws (args props) w Hok)).
  cbn [snd].
  destruct (flush_frame (after_effect (Fulfilled tt) (after_download (args props) w)))
    as (_ & H1 & H2 & H3 & H4 & H5 & H6 & H7 & _).
  cbv zeta in *. rewrite H1, H2, H3, H4, H5, H6, H7. repeat split.
Qed.

Lemma well_formed_after_download (a : Args) (w : World) :
  well_formed w → well_formed (after_download a w).
Proof.
  intros [Hu Hn]. split; cbn [after_download next_url object_urls next_node body].
  - intros u Hle. rewrite lookup_delete_ne by lia. apply Hu. lia.
  - intros n Hin. apply list_elem_of_filter in Hin as [_ Hin].
    specialize (Hn n Hin). lia.
Qed.

(** In a well-formed world a complete download leaves the URL store and
    the body as they were. *)
Lemma after_download_restores (a : Args) (w : World) :
  well_formed w →
  object_urls (after_download a w) = object_urls w ∧
  body (after_download a w) = body w.
Proof.
  intros [Hu Hn]. cbn [after_download object_urls body]. split.
  - apply delete_id, Hu. lia.
  - apply filter_ne_absent. intros Hin. specialize (Hn _ Hin). lia.
Qed.

Lemma well_formed_mount (props : ComponentProps Theme) (w : World) :
  reliable throws → well_formed w → well_formed (exec (mount throws props) w).
Proof.
  intros Hok Hwf.
  destruct (mount_reliable props w Hok) as (_ & _ & H3 & H4 & _ & H6 & H7).
  cbv zeta in *.
  destruct (well_formed_after_download (args props) w Hwf) as [Hu Hn].
  split.
  - intros u. rewrite H4, H6. apply Hu.
  - intros n. rewrite H3, H7. apply Hn.
Qed.

End Lifecycle.

Lemma fails_somewhere_false (throws : BrowserApi → bool) :
  fails_somewhere throws = false ↔ reliable throws.
Proof.
  unfold fails_somewhere, all_apis, reliable. cbn [existsb]. split.
  - intros H api. repeat (apply orb_false_elim in H as [? H]). destruct api; assumption.
  - intros H. rewrite !H. reflexivity.
Qed.

Lemma fails_somewhere_true (throws : BrowserApi → bool) (api : BrowserApi) :
  throws api = true → fails_somewhere throws = true.
Proof.
  intros H. destruct (fails_somewhere throws) eqn:E; [reflexivity|].
  apply fails_somewhere_false in E. rewrite E in H. discriminate.
Qed.

Lemma mounts_cons {Theme} (throws : BrowserApi → bool)
    (p : ComponentProps Theme) (rest : list (ComponentProps Theme)) (w : World) :
  exec (mounts throws (p :: rest)) w = exec (mounts throws rest) (exec (mount throws p) w).
Proof.
  destruct (triggerDownload_settles throws (args p) w) as (pr & w1 & k & H & _).
  cbn [mounts]. unfold exec, bind. rewrite (mount_eq throws p w pr w1 H). reflexivity.
Qed.

Lemma host_messages_prefix (a : Args) (u n k : nat) :
  (k ≤ 8)%nat → host_messages (take k (download_events a u n)) = [].
Proof.
  intros Hk. do 9 (destruct k as [|k]; [reflexivity|]). lia.
Qed.

(** What the host hears from a mount. *)
Lemma mount_host_messages {Theme} (throws : BrowserApi → bool)
    (props : ComponentProps Theme) (w : World) :
  host_messages (new_events w (exec (mount throws props) w))
  = (if fails_somewhere throws then [] else [ComponentValue 1]) ++ [FrameHeight 0].
Proof.
  destruct (mount_trace throws props w) as (k & Ht & _ & Hf & Ht').
  rewrite (new_events_app _ _ _ Ht).
  unfold host_messages. rewrite omap_app. fold host_messages.
  destruct (fails_somewhere throws).
  - rewrite host_messages_prefix by (apply Ht'; reflexivity). reflexivity.
  - rewrite (Hf eq_refl). reflexivity.
Qed.

(* --------------------------------------------------------------------- *)
(** *** Concrete runs *)

Example mount_csv_trace :
  trace (exec (mount no_failures csv_props) empty_world)
  = download_events csv_args 0%nat 0%nat ++ [EvSetFrameHeight 0].
Proof. vm_compute. reflexivity. Qed.

Example mount_csv_saves_file :
  downloads (exec (mount no_failures csv_props) empty_world)
  = [mkDownload "out.csv" (mkBlob [PString "a,b"] "text/csv")].
Proof. vm_compute. reflexivity. Qed.

Example mount_csv_host :
  host_messages (trace (exec (mount no_failures csv_props) empty_world))
  = [ComponentValue 1; FrameHeight 0].
Proof. vm_compute. reflexivity. Qed.

(** The operation has no [try]/[finally]: when [click] fails, the steps
    after it are skipped, so the anchor stays in the body and the object
    URL stays registered.  The reliability assumption of the resource
    properties below is therefore needed. *)
Example click_failure_skips_cleanup :
  let w' := exec (mount click_fails csv_props) empty_world in
  body w' = [0%nat] ∧
  object_urls w' !! 0%nat = Some (mkBlob [PString "a,b"] "text/csv") ∧
  downloads w' = [] ∧
  host_messages (trace w') = [FrameHeight 0] ∧
  unhandled w' = [BrowserFailure ApiClick].
Proof. vm_compute. repeat split. Qed.

(* ===================================================================== *)
(** ** Properties of the component *)
(* ===================================================================== *)

(** C1. With a browser that does not fail, one mount of the component,
    followed by any number of re-renders, clicks the synthesized anchor
    exactly once and hands exactly one file to the save flow: the supplied
    data, under the supplied name and type. *)
Theorem one_download_per_mount {Theme} (throws : BrowserApi → bool)
    (first : ComponentProps Theme) (later : list (ComponentProps Theme)) (w : World) :
  reliable throws →
  let w' := exec (lifetime throws first later) w in
  clicks (new_events w w') = 1%nat ∧
  downloads w' =
    downloads w ++
    [mkDownload (filename (args first))
       (mkBlob [data (args first)] (content_type (args first)))].
Proof.
  intros Hok. cbv zeta. unfold exec at 1 2. rewrite lifetime_eq. cbn [snd].
  destruct (mount_reliable throws first w Hok) as (Ht & Hd & _).
  cbv zeta in Ht, Hd. split.
  - rewrite (new_events_app w _ (download_events (args first) (next_url w) (next_node w)
                                   ++ [EvSetFrameHeight 0])).
    + reflexivity.
    + rewrite Ht. cbn [after_download trace]. rewrite <- app_assoc. reflexivity.
  - rewrite Hd. reflexivity.
Qed.

Lemma one_download_per_mount_witness :
  reliable no_failures ∧
  clicks (new_events empty_world
            (exec (lifetime no_failures csv_props [csv_props; csv_props]) empty_world)) = 1%nat.
Proof.
  split; [intros api; reflexivity|].
  apply (one_download_per_mount no_failures csv_props [csv_props; csv_props] empty_world).
  intros api. reflexivity.
Defined.

(** C2. With a browser that does not fail, every run of the download
    operation revokes the object URL it created: the revocation comes
    after the click and before the operation ends, the URL is not
    registered afterwards, and in a well-formed world the URL store is
    what it was before the operation, also after any number of mounts. *)
Theorem object_url_revoked {Theme} (throws : BrowserApi → bool) (a : Args)
    (ps : list (ComponentProps Theme)) (w : World) :
  reliable throws →
  well_formed w →
  let u := next_url w in
  let n := next_node w in
  let w' := exec (triggerDownload throws a) w in
  (∃ pre post,
      new_events w w' = pre ++ EvClick n :: post ∧
      (EvRevokeObjectURL u ∉ pre) ∧ EvRevokeObjectURL u ∈ post) ∧
  object_urls w' !! u = None ∧
  object_urls w' = object_urls w ∧
  object_urls (exec (mounts throws ps) w) = object_urls w.
Proof.
  intros Hok Hwf. cbv zeta. unfold exec at 1 2 3.
  rewrite (triggerDownload_reliable throws a w Hok). cbn [snd].
  split; [|split; [|split]].
  - exists (take 6 (download_events a (next_url w) (next_node w))),
           (drop 7 (download_events a (next_url w) (next_node w))).
    split; [|split].
    + apply new_events_app. reflexivity.
    + cbn. intros H. repeat (apply elem_of_cons in H as [H|H]; [discriminate H|]).
      apply elem_of_nil in H. exact H.
    + cbn. do 1 right. left.
  - cbn [after_download object_urls]. apply lookup_delete_eq.
  - apply (after_download_restores a w Hwf).
  - clear a. revert w Hwf. induction ps as [|p ps IH]; intros w Hwf; [reflexivity|].
    rewrite mounts_cons.
    rewrite (IH _ (well_formed_mount throws p w Hok Hwf)).
    destruct (mount_reliable throws p w Hok) as (_ & _ & _ & H4 & _).
    cbv zeta in H4. rewrite H4.
    apply (after_download_restores (args p) w Hwf).
Qed.

Lemma object_url_revoked_witness :
  reliable no_failures ∧ well_formed empty_world ∧
  object_urls (exec (mounts no_failures [csv_props; csv_props]) empty_world)
  = object_urls empty_world.
Proof.
  assert (Hwf : well_formed empty_world).
  { split; [intros u _; reflexivity | intros n Hn; inversion Hn]. }
  split; [intros api; reflexivity|]. split; [exact Hwf|].
  apply (object_url_revoked no_failures csv_args [csv_props; csv_props] empty_world).
  - intros api. reflexivity.
  - exact Hwf.
Defined.

(** C3. Whatever the data, filename and content type, the only component
    value a mount reports to the host is the integer 1: it is reported
    once when the download operation ran to its end and not at all when a
    browser call failed, next to the frame-height request. *)
Theorem reported_value_is_one {Theme} (throws : BrowserApi → bool)
    (props : ComponentProps Theme) (w : World) :
  host_messages (new_events w (exec (mount throws props) w))
  = (if fails_somewhere throws then [] else [ComponentValue 1]) ++ [FrameHeight 0].
Proof. apply mount_host_messages. Qed.

(** C4. With a browser that does not fail, the download operation performs
    its steps in this order: construct the blob, create the object URL,
    create the anchor and set its [href] and [download], append it to the
    body, click it, remove it, revoke the URL, report 1 to the host. *)
Theorem download_steps_in_order (throws : BrowserApi → bool) (a : Args) (w : World) :
  reliable throws →
  let u := next_url w in
  let n := next_node w in
  let blob := mkBlob [data a] (content_type a) in
  new_events w (exec (triggerDownload throws a) w)
  = [ EvNewBlob [data a] (content_type a);
      EvCreateObjectURL blob u;
      EvCreateElement "a" n;
      EvSetHref n u;
      EvSetDownload n (filename a);
      EvAppendChild n;
      EvClick n;
      EvRemoveChild n;
      EvRevokeObjectURL u;
      EvSetComponentValue 1 ].
Proof.
  intros Hok. cbv zeta. unfold exec.
  rewrite (triggerDownload_reliable throws a w Hok). cbn [snd].
  apply new_events_app. reflexivity.
Qed.

Lemma download_steps_in_order_witness :
  reliable no_failures ∧
  new_events empty_world (exec (triggerDownload no_failures csv_args) empty_world)
  = [ EvNewBlob [PString "a,b"] "text/csv";
      EvCreateObjectURL (mkBlob [PString "a,b"] "text/csv") 0%nat;
      EvCreateElement "a" 0%nat;
      EvSetHref 0%nat 0%nat;
      EvSetDownload 0%nat "out.csv";
      EvAppendChild 0%nat;
      EvClick 0%nat;
      EvRemoveChild 0%nat;
      EvRevokeObjectURL 0%nat;
      EvSetComponentValue 1 ].
Proof.
  split; [intros api; reflexivity|].
  apply (download_steps_in_order no_failures csv_args empty_world).
  intros api. reflexivity.
Defined.

(** C5. The download operation runs inside the effect callback of the
    mount and nowhere else.  The callback returns normally; every event of
    the operation is on the trace before the callback's last statement
    (the frame-height request); when no browser call fails these are all
    ten steps, each once.  What is left for later is a single reaction job
    queued by [.then()], and neither that job nor any re-render changes
    the trace, the saved files, the body or the URL store. *)
Theorem download_runs_within_effect {Theme} (throws : BrowserApi → bool)
    (props : ComponentProps Theme) (later : list (ComponentProps Theme)) (w : World) :
  ∃ p w1 k,
    triggerDownload throws (args props) w = (Ok p, w1) ∧
    mount_effect (Downloader throws props) w = (Ok tt, after_effect p w1) ∧
    new_events w (after_effect p w1)
    = take k (download_events (args props) (next_url w) (next_node w))
      ++ [EvSetFrameHeight 0] ∧
    (if fails_somewhere throws then (k ≤ 8)%nat else k = 10%nat) ∧
    microtasks (after_effect p w1) = microtasks w ++ [PassThrough p] ∧
    let w' := exec (lifetime throws props later) w in
    trace w' = trace (after_effect p w1) ∧
    downloads w' = downloads (after_effect p w1) ∧
    body w' = body (after_effect p w1) ∧
    object_urls w' = object_urls (after_effect p w1).
Proof.
  destruct (triggerDownload_settles throws (args props) w)
    as (p & w1 & k & H & Ht & Hm & _ & Hp).
  exists p, w1, k. split; [exact H|]. split; [|split; [|split; [|split]]].
  - destruct props as [a d t]. cbn [Downloader mount_effect].
    apply effect_callback_eq. exact H.
  - apply new_events_app. unfold after_effect. cbn [trace emit enqueue].
    rewrite Ht, <- app_assoc. reflexivity.
  - destruct p as [[]|e].
    + destruct Hp as (Hok & _ & ->).
      apply fails_somewhere_false in Hok. rewrite Hok. reflexivity.
    + destruct Hp as ((api & _ & Hapi) & Hk).
      rewrite (fails_somewhere_true throws api Hapi). exact Hk.
  - unfold after_effect. cbn [microtasks emit enqueue]. rewrite Hm. reflexivity.
  - cbv zeta. unfold exec. rewrite lifetime_eq. cbn [snd].
    unfold exec. rewrite (mount_eq throws props w p w1 H). cbn [snd].
    destruct (flush_frame (after_effect p w1)) as (_ & H1 & H2 & H3 & H4 & _).
    cbv zeta in H1, H2, H3, H4. repeat split; assumption.
Qed.

(** C6. When a browser call of the operation fails, the failure is neither
    caught nor reported: [triggerDownload] returns a promise rejected with
    that failure, which ends as an unhandled rejection; the mount and all
    re-renders still complete normally with the same hidden element; and
    the host receives the frame-height request only, no component value. *)
Theorem failures_not_reported {Theme} (throws : BrowserApi → bool)
    (props : ComponentProps Theme) (later : list (ComponentProps Theme)) (w : World)
    (api : BrowserApi) :
  throws api = true →
  let w' := exec (lifetime throws props later) w in
  (∃ failed,
      throws failed = true ∧
      result (triggerDownload throws (args props)) w = Ok (Rejected (BrowserFailure failed)) ∧
      last (unhandled w') = Some (BrowserFailure failed)) ∧
  result (lifetime throws props later) w = Ok hidden_div ∧
  host_messages (new_events w w') = [FrameHeight 0].
Proof.
  intros Hapi. cbv zeta.
  destruct (triggerDownload_settles throws (args props) w)
    as (p & w1 & k & H & Ht & Hm & _ & Hp).
  destruct p as [[]|e].
  { destruct Hp as (Hok & _). rewrite Hok in Hapi. discriminate. }
  destruct Hp as ((failed & -> & Hfailed) & Hk).
  split; [|split].
  - exists failed. split; [exact Hfailed|]. split.
    + unfold result. rewrite H. reflexivity.
    + unfold exec. rewrite lifetime_eq. cbn [snd].
      unfold exec. rewrite (mount_eq throws props w _ w1 H). cbn [snd].
      unfold flush_microtasks, modify, after_effect, exec.
      cbn [snd microtasks emit enqueue].
      rewrite run_jobs_unhandled_snoc. apply last_snoc.
  - unfold result. rewrite lifetime_eq. reflexivity.
  - unfold exec at 1. rewrite lifetime_eq. cbn [snd].
    rewrite mount_host_messages.
    rewrite (fails_somewhere_true throws api Hapi). reflexivity.
Qed.

Lemma failures_not_reported_witness :
  click_fails ApiClick = true ∧
  host_messages
    (new_events empty_world (exec (lifetime click_fails csv_props [csv_props]) empty_world))
  = [FrameHeight 0].
Proof.
  split; [reflexivity|].
  apply (failures_not_reported click_fails csv_props [csv_props] empty_world ApiClick).
  reflexivity.
Defined.

(** C7. Whatever the props and the browser's behaviour, the element the
    component returns takes no visible space (no children, hidden, margin
    box 0 by 0), it is what the mount and every re-render show, and the
    mount asks the host for a frame height of 0 and for no other height. *)
Theorem renders_in_zero_space {Theme} (throws : BrowserApi → bool)
    (props : ComponentProps Theme) (later : list (ComponentProps Theme)) (w : World) :
  zero_visible_space (element (Downloader throws props)) ∧
  result (lifetime throws props later) w = Ok (element (Downloader throws props)) ∧
  frame_heights (host_messages (new_events w (exec (lifetime throws props later) w)))
  = [0].
Proof.
  split; [|split].
  - destruct props as [a d t]. cbn [Downloader element].
    repeat split.
  - unfold result. rewrite lifetime_eq. destruct props as [a d t]. reflexivity.
  - unfold exec at 1. rewrite lifetime_eq. cbn [snd].
    rewrite mount_host_messages. destruct (fails_somewhere throws); reflexivity.
Qed.

(** C8. Two invocations that differ only in [disabled] and [theme] behave
    identically: mounting yields the same element and the same world
    (trace, saved files, messages to the host), and so does re-rendering. *)
Theorem display_flags_ignored {Theme} (throws : BrowserApi → bool)
    (p1 p2 : ComponentProps Theme) (w : World) :
  args p1 = args p2 →
  mount throws p1 w = mount throws p2 w ∧
  update throws p1 w = update throws p2 w ∧
  element (Downloader throws p1) = element (Downloader throws p2).
Proof.
  intros Hargs. destruct p1 as [a1 d1 t1], p2 as [a2 d2 t2].
  cbn [args] in Hargs. subst a2. repeat split.
Qed.

Lemma display_flags_ignored_witness :
  args (mkProps csv_args false (None : option string))
  = args (mkProps csv_args true (Some "dark")) ∧
  mount no_failures (mkProps csv_args false (None : option string)) empty_world
  = mount no_failures (mkProps csv_args true (Some "dark")) empty_world.
Proof.
  split; [reflexivity|].
  apply (display_flags_ignored no_failures
           (mkProps csv_args false None) (mkProps csv_args true (Some "dark"))
           empty_world).
  reflexivity.
Defined.

Lemma normalise_type_fixed (t : string) :
  already_normal t = true → normalise_type t = t.
Proof.
  unfold already_normal, normalise_type. intros H.
  assert (Hr : string_forall in_type_range t = true).
  { induction t as [|c t IH]; [reflexivity|]. cbn [string_forall] in *.
    apply andb_prop in H as [Hc Ht]. apply andb_prop in Hc as [Hc _].
    rewrite Hc, (IH Ht). reflexivity. }
  rewrite Hr. clear Hr.
  induction t as [|c t IH]; [reflexivity|]. cbn [string_forall string_map] in *.
  apply andb_prop in H as [Hc Ht]. apply andb_prop in Hc as [_ Hc].
  rewrite (IH Ht). unfold ascii_lowercase.
  destruct (is_ascii_upper c); [discriminate Hc | reflexivity].
Qed.

Example normalise_type_cases :
  normalise_type "Text/CSV" = "text/csv" ∧
  normalise_type "text/csv; charset=utf-8" = "text/csv; charset=utf-8" ∧
  normalise_type "tëxt/csv" = "" ∧
  normalise_type "" = "".
Proof. vm_compute. repeat split. Qed.

(** C9, refuted as stated.  For the content type ["Text/CSV"] the file is
    saved under the supplied name, but the MIME type of the blob is
    ["text/csv"], not the supplied string. *)
Lemma mime_type_not_verbatim :
  ¬ (∀ d,
       last (downloads
               (exec (triggerDownload no_failures
                        (mkArgs (PString "a,b") "out.csv" "Text/CSV"))
                     empty_world)) = Some d →
       saved_as d = "out.csv" ∧ mime_type (saved_blob d) = "Text/CSV").
Proof.
  intros H.
  destruct (H (mkDownload "out.csv" (mkBlob [PString "a,b"] "Text/CSV")) eq_refl)
    as [_ Hm].
  vm_compute in Hm. discriminate Hm.
Qed.

(** C9, amended.  With a browser that does not fail, the filename and the
    content type are passed on unvalidated, whatever strings they are: the
    anchor's [download] is exactly [filename], the Blob constructor is
    given exactly [content_type] as its [type] option, and the file handed
    to the save flow carries that name and that blob.  The blob's MIME
    type is what the constructor makes of the option: the supplied string
    itself when that is printable ASCII without upper-case letters, and
    otherwise its normalisation (lower-cased, or empty). *)
Theorem filename_verbatim_type_normalised (throws : BrowserApi → bool)
    (a : Args) (w : World) :
  reliable throws →
  let u := next_url w in
  let n := next_node w in
  let w' := exec (triggerDownload throws a) w in
  let blob := mkBlob [data a] (content_type a) in
  nodes w' !! n = Some (mkElement "a" (Some u) (Some (filename a))) ∧
  new_events w w' !! 0%nat = Some (EvNewBlob [data a] (content_type a)) ∧
  new_events w w' !! 4%nat = Some (EvSetDownload n (filename a)) ∧
  last (downloads w') = Some (mkDownload (filename a) blob) ∧
  mime_type blob =
    (if already_normal (content_type a) then content_type a
     else normalise_type (content_type a)).
Proof.
  intros Hok. cbv zeta. unfold exec.
  rewrite (triggerDownload_reliable throws a w Hok). cbn [snd].
  rewrite (new_events_app w (after_download a w)
             (download_events a (next_url w) (next_node w)) eq_refl).
  cbn [after_download nodes downloads].
  split; [apply lookup_insert_eq|]. split; [reflexivity|]. split; [reflexivity|].
  split; [apply last_snoc|].
  unfold mime_type. cbn [blob_type].
  destruct (already_normal (content_type a)) eqn:E; [|reflexivity].
  apply normalise_type_fixed. exact E.
Qed.

Lemma filename_verbatim_type_normalised_witness :
  reliable no_failures ∧
  last (downloads (exec (triggerDownload no_failures
                           (mkArgs (PBytes [80; 75]) "../My File?.ZIP" "Application/X-Zip; q"))
                        empty_world))
  = Some (mkDownload "../My File?.ZIP"
            (mkBlob [PBytes [80; 75]] "Application/X-Zip; q")) ∧
  mime_type (mkBlob [PBytes [80; 75]] "Application/X-Zip; q") = "application/x-zip; q".
Proof.
  split; [intros api; reflexivity|].
  assert (H := filename_verbatim_type_normalised no_failures
                 (mkArgs (PBytes [80; 75]) "../My File?.ZIP" "Application/X-Zip; q")
                 empty_world (fun api => eq_refl)).
  cbv zeta in H. destruct H as (_ & _ & _ & Hd & Hm).
  split; [exact Hd | exact Hm].
Defined.

(** C10. With a browser that does not fail, the anchor is appended to the
    document body, clicked and removed again within the operation; it is
    not a child of the body afterwards, and in a well-formed world the
    body has exactly the children it had before. *)
Theorem anchor_removed_from_body (throws : BrowserApi → bool) (a : Args) (w : World) :
  reliable throws →
  well_formed w →
  let n := next_node w in
  let w' := exec (triggerDownload throws a) w in
  (∃ pre post,
      new_events w w' = pre ++ [EvAppendChild n; EvClick n; EvRemoveChild n] ++ post) ∧
  (n ∉ body w) ∧
  (n ∉ body w') ∧
  body w' = body w.
Proof.
  intros Hok Hwf. cbv zeta. unfold exec.
  rewrite (triggerDownload_reliable throws a w Hok). cbn [snd].
  assert (Hfresh : next_node w ∉ body w).
  { intros Hin. destruct Hwf as [_ Hn]. specialize (Hn _ Hin). lia. }
  destruct (after_download_restores a w Hwf) as [_ Hb].
  split; [|split; [|split]].
  - exists (take 5 (download_events a (next_url w) (next_node w))),
           (drop 8 (download_events a (next_url w) (next_node w))).
    apply new_events_app. reflexivity.
  - exact Hfresh.
  - rewrite Hb. exact Hfresh.
  - exact Hb.
Qed.

Lemma anchor_removed_from_body_witness :
  reliable no_failures ∧ well_formed empty_world ∧
  body (exec (triggerDownload no_failures csv_args) empty_world) = body empty_world.
Proof.
  assert (Hwf : well_formed empty_world).
  { split; [intros u _; reflexivity | intros n Hn; inversion Hn]. }
  split; [intros api; reflexivity|]. split; [exact Hwf|].
  apply (anchor_removed_from_body no_failures csv_args empty_world).
  - intros api. reflexivity.
  - exact Hwf.
Defined.

(* ===================================================================== *)
(** ** Behaviour under failure, frame and repeated mounts *)
(* ===================================================================== *)

Section Failure.

Variable throws : BrowserApi → bool.

(** [triggerDownload] for every browser behaviour: it stops at the first
    failing call. *)
Lemma triggerDownload_first_failure (a : Args) (w : World) :
  triggerDownload throws a w =
  match first_failure throws with
  | None => (Ok (Fulfilled tt), after_download a w)
  | Some api => (Ok (Rejected (BrowserFailure api)), stopped_at api a w)
  end.
Proof.
  unfold first_failure, all_apis. cbn [List.find].
  destruct (throws ApiNewBlob) eqn:E1;
  [|destruct (throws ApiCreateObjectURL) eqn:E2;
  [|destruct (throws ApiCreateElement) eqn:E3;
  [|destruct (throws ApiAppendChild) eqn:E4;
  [|destruct (throws ApiClick) eqn:E5;
  [|destruct (throws ApiRemoveChild) eqn:E6;
  [|destruct (throws ApiRevokeObjectURL) eqn:E7]]]]]].
  8: {
    assert (Hok : reliable throws) by (intros []; assumption).
    apply (triggerDownload_reliable throws a w Hok).
  }
  all: destruct w as [ou nu nd nn bd dl tr mt uh];
    unfold triggerDownload, async, new_Blob, URL_createObjectURL,
      document_createElement, document_body_appendChild, click,
      document_body_removeChild, URL_revokeObjectURL, guarded;
    rewrite ?E1, ?E2, ?E3, ?E4, ?E5, ?E6, ?E7;
    cbv beta iota zeta delta
      [bind ret throw modify set_href set_download emit set_object_urls
       set_next_url set_nodes set_next_node set_body object_urls next_url
       nodes next_node body downloads trace microtasks unhandled];
    rewrite ?activation_ready;
    cbv beta iota zeta delta
      [add_download object_urls next_url nodes next_node body
       downloads trace microtasks unhandled];
    rewrite ?(bool_decide_true _ (appended_is_child nn bd));
    cbv beta iota zeta delta
      [emit set_object_urls set_body object_urls next_url nodes next_node body
       downloads trace microtasks unhandled];
    unfold stopped_at, saved_file;
    cbn [steps_before take download_events object_urls next_url nodes next_node
         body downloads trace microtasks unhandled];
    rewrite ?anchor_final, ?filter_ne_snoc, ?app_nil_r;
    repeat rewrite <- app_assoc; reflexivity.
Qed.

Lemma triggerDownload_world (a : Args) (w : World) :
  exec (triggerDownload throws a) w = settled_world throws a w.
Proof.
  unfold exec, settled_world. rewrite triggerDownload_first_failure.
  destruct (first_failure throws); reflexivity.
Qed.

Lemma first_failure_throws (api : BrowserApi) :
  first_failure throws = Some api → throws api = true.
Proof. intros H. apply find_some in H as [_ H]. exact H. Qed.

Lemma first_failure_none : first_failure throws = None ↔ fails_somewhere throws = false.
Proof.
  unfold first_failure, fails_somewhere, all_apis. cbn [List.find existsb].
  destruct (throws ApiNewBlob), (throws ApiCreateObjectURL), (throws ApiCreateElement),
    (throws ApiAppendChild), (throws ApiClick), (throws ApiRemoveChild),
    (throws ApiRevokeObjectURL); cbn; split; intros H; congruence.
Qed.

(** The fields of the world after a mount, from the world in which the
    download settled. *)
Lemma mount_fields {Theme} (props : ComponentProps Theme) (w : World) :
  let w1 := settled_world throws (args props) w in
  let w' := exec (mount throws props) w in
  trace w' = trace w1 ++ [EvSetFrameHeight 0] ∧
  downloads w' = downloads w1 ∧ body w' = body w1 ∧
  object_urls w' = object_urls w1 ∧ nodes w' = nodes w1 ∧
  next_url w' = next_url w1 ∧ next_node w' = next_node w1 ∧
  microtasks w' = [].
Proof.
  cbv zeta.
  destruct (triggerDownload_settles throws (args props) w) as (p & w1 & k & H & _).
  assert (Hw : settled_world throws (args props) w = w1).
  { rewrite <- triggerDownload_world. unfold exec. rewrite H. reflexivity. }
  rewrite Hw. unfold exec. rewrite (mount_eq throws props w p w1 H). cbn [snd].
  destruct (flush_frame (after_effect p w1)) as (_ & H1 & H2 & H3 & H4 & H5 & H6 & H7 & H8).
  cbv zeta in *. rewrite H1, H2, H3, H4, H5, H6, H7, H8. repeat split.
Qed.

End Failure.

(** X1. [triggerDownload] never throws to its caller.  The promise it
    returns is fulfilled when no browser call fails and is otherwise
    rejected with the failure of the first failing call in program order;
    in particular [removeChild] never raises [NotFoundError] here. *)
Theorem promise_settles_by_first_failure (throws : BrowserApi → bool)
    (a : Args) (w : World) :
  result (triggerDownload throws a) w =
  Ok (match first_failure throws with
      | Some api => Rejected (BrowserFailure api)
      | None => Fulfilled tt
      end).
Proof.
  unfold result. rewrite triggerDownload_first_failure.
  destruct (first_failure throws); reflexivity.
Qed.

(** X2. For every browser behaviour, the steps of [triggerDownload] that
    ran are exactly the steps that precede the first failing call, in
    source order; nothing after the failing call is executed. *)
Theorem events_stop_at_first_failure (throws : BrowserApi → bool)
    (a : Args) (w : World) :
  new_events w (exec (triggerDownload throws a) w)
  = take (steps_done throws) (download_events a (next_url w) (next_node w)).
Proof.
  rewrite triggerDownload_world. unfold settled_world, steps_done.
  destruct (first_failure throws) as [api|]; apply new_events_app.
  - destruct api; reflexivity.
  - reflexivity.
Qed.

(** X3. There is no cleanup on failure: when [new Blob] and
    [createObjectURL] succeed and any later browser call fails, the object
    URL created by the operation is still registered, with the payload's
    blob, after the mount. *)
Theorem url_stays_registered_after_failure {Theme} (throws : BrowserApi → bool)
    (props : ComponentProps Theme) (w : World) :
  throws ApiNewBlob = false →
  throws ApiCreateObjectURL = false →
  fails_somewhere throws = true →
  object_urls (exec (mount throws props) w) !! next_url w
  = Some (mkBlob [data (args props)] (content_type (args props))).
Proof.
  intros E1 E2 Hf.
  destruct (mount_fields throws props w) as (_ & _ & _ & H4 & _).
  cbv zeta in H4. rewrite H4. unfold settled_world.
  destruct (first_failure throws) as [api|] eqn:E.
  - apply first_failure_throws in E.
    destruct api; try congruence; cbn [stopped_at object_urls]; apply lookup_insert_eq.
  - apply first_failure_none in E. congruence.
Qed.

Lemma url_stays_registered_after_failure_witness :
  click_fails ApiNewBlob = false ∧ click_fails ApiCreateObjectURL = false ∧
  fails_somewhere click_fails = true ∧
  object_urls (exec (mount click_fails csv_props) empty_world) !! next_url empty_world
  = Some (mkBlob [data (args csv_props)] (content_type (args csv_props))).
Proof.
  split; [reflexivity|]. split; [reflexivity|]. split; [reflexivity|].
  apply (url_stays_registered_after_failure click_fails csv_props empty_world);
    reflexivity.
Defined.

(** X4. When the first failing call is [click] or [removeChild], the
    anchor is left in the document: it is the last child of the body
    after the mount. *)
Theorem anchor_stays_when_click_or_remove_fails {Theme} (throws : BrowserApi → bool)
    (props : ComponentProps Theme) (w : World) :
  first_failure throws = Some ApiClick ∨ first_failure throws = Some ApiRemoveChild →
  last (body (exec (mount throws props) w)) = Some (next_node w).
Proof.
  intros H.
  destruct (mount_fields throws props w) as (_ & _ & H3 & _).
  cbv zeta in H3. rewrite H3. unfold settled_world.
  destruct H as [-> | ->]; cbn [stopped_at body]; apply last_snoc.
Qed.

Lemma anchor_stays_when_click_or_remove_fails_witness :
  (first_failure click_fails = Some ApiClick ∨
   first_failure click_fails = Some ApiRemoveChild) ∧
  last (body (exec (mount click_fails csv_props) empty_world)) = Some (next_node empty_world).
Proof.
  split; [left; reflexivity|].
  apply (anchor_stays_when_click_or_remove_fails click_fails csv_props empty_world).
  left. reflexivity.
Defined.

(** X5. For every browser behaviour, a mount hands the file to the save
    flow exactly when the click was reached and succeeded (at least seven
    steps done), and it never touches the files saved before. *)
Theorem file_saved_iff_click_succeeds {Theme} (throws : BrowserApi → bool)
    (props : ComponentProps Theme) (w : World) :
  downloads (exec (mount throws props) w)
  = downloads w ++
    (if (7 <=? steps_done throws)%nat then [saved_file (args props)] else []).
Proof.
  destruct (mount_fields throws props w) as (_ & H2 & _).
  cbv zeta in H2. rewrite H2. unfold settled_world, steps_done.
  destruct (first_failure throws) as [api|].
  - destruct api; cbn [stopped_at downloads steps_before Nat.leb];
      rewrite ?app_nil_r; reflexivity.
  - reflexivity.
Qed.

(** X6. When the first failing call is [removeChild] or
    [revokeObjectURL], the file has already been handed to the save flow,
    yet the host is never told: it receives the frame-height request
    only. *)
Theorem saved_but_not_reported {Theme} (throws : BrowserApi → bool)
    (props : ComponentProps Theme) (w : World) :
  first_failure throws = Some ApiRemoveChild ∨
  first_failure throws = Some ApiRevokeObjectURL →
  let w' := exec (mount throws props) w in
  downloads w' = downloads w ++ [saved_file (args props)] ∧
  host_messages (new_events w w') = [FrameHeight 0].
Proof.
  intros H. cbv zeta. split.
  - destruct (mount_fields throws props w) as (_ & H2 & _).
    cbv zeta in H2. rewrite H2. unfold settled_world.
    destruct H as [-> | ->]; reflexivity.
  - rewrite mount_host_messages.
    assert (Hf : fails_somewhere throws = true).
    { destruct H as [H|H]; apply first_failure_throws in H;
        exact (fails_somewhere_true throws _ H). }
    rewrite Hf. reflexivity.
Qed.

Lemma saved_but_not_reported_witness :
  (first_failure revoke_fails = Some ApiRemoveChild ∨
   first_failure revoke_fails = Some ApiRevokeObjectURL) ∧
  downloads (exec (mount revoke_fails csv_props) empty_world)
  = downloads empty_world ++ [saved_file (args csv_props)].
Proof.
  split; [right; reflexivity|].
  apply (saved_but_not_reported revoke_fails csv_props empty_world).
  right. reflexivity.
Defined.

(** X7. When [new Blob] or [createObjectURL] fails, the mount changes
    nothing in the document: URL store, elements, body, saved files and
    both allocation counters are as before. *)
Theorem early_failure_changes_nothing {Theme} (throws : BrowserApi → bool)
    (props : ComponentProps Theme) (w : World) :
  throws ApiNewBlob = true ∨ throws ApiCreateObjectURL = true →
  let w' := exec (mount throws props) w in
  object_urls w' = object_urls w ∧ nodes w' = nodes w ∧ body w' = body w ∧
  downloads w' = downloads w ∧ next_url w' = next_url w ∧ next_node w' = next_node w.
Proof.
  intros H. cbv zeta.
  destruct (mount_fields throws props w) as (_ & H2 & H3 & H4 & H5 & H6 & H7 & _).
  cbv zeta in *. rewrite H2, H3, H4, H5, H6, H7. unfold settled_world.
  assert (Hff : first_failure throws = Some ApiNewBlob ∨
                first_failure throws = Some ApiCreateObjectURL).
  { unfold first_failure, all_apis. cbn [List.find].
    destruct (throws ApiNewBlob); [left; reflexivity|].
    destruct H as [H|H]; [discriminate H|]. rewrite H. right. reflexivity. }
  destruct Hff as [-> | ->]; repeat split.
Qed.

Lemma early_failure_changes_nothing_witness :
  (blob_fails ApiNewBlob = true ∨ blob_fails ApiCreateObjectURL = true) ∧
  object_urls (exec (mount blob_fails csv_props) empty_world) = object_urls empty_world.
Proof.
  split; [left; reflexivity|].
  apply (early_failure_changes_nothing blob_fails csv_props empty_world).
  left. reflexivity.
Defined.

Lemma filter_ne_idemp (n : nat) (l : list nat) :
  filter (fun m => m ≠ n) (filter (fun m => m ≠ n) l) = filter (fun m => m ≠ n) l.
Proof. rewrite list_filter_filter. apply list_filter_iff. intros x. tauto. Qed.

(** X8. Whatever fails, a mount touches only what it allocated itself:
    apart from the object URL and the element it created, the URL store,
    the elements and the children of the body are as before, and the files
    saved before are still there, in the same order. *)
Theorem mount_touches_only_its_own {Theme} (throws : BrowserApi → bool)
    (props : ComponentProps Theme) (w : World) :
  let u := next_url w in
  let n := next_node w in
  let w' := exec (mount throws props) w in
  delete u (object_urls w') = delete u (object_urls w) ∧
  delete n (nodes w') = delete n (nodes w) ∧
  filter (fun m => m ≠ n) (body w') = filter (fun m => m ≠ n) (body w) ∧
  downloads w `prefix_of` downloads w'.
Proof.
  cbv zeta.
  destruct (mount_fields throws props w) as (_ & H2 & H3 & H4 & H5 & _).
  cbv zeta in *. rewrite H2, H3, H4, H5. unfold settled_world.
  destruct (first_failure throws) as [api|].
  - destruct api; cbn [stopped_at object_urls nodes body downloads];
      rewrite ?delete_insert_eq, ?filter_ne_snoc, ?filter_ne_idemp;
      repeat split; try reflexivity; try (apply prefix_app_r; reflexivity).
  - cbn [after_download object_urls nodes body downloads].
    rewrite delete_delete_eq, delete_insert_eq, filter_ne_idemp.
    repeat split; apply prefix_app_r; reflexivity.
Qed.

Lemma well_formed_settled (throws : BrowserApi → bool) (a : Args) (w : World) :
  well_formed w → well_formed (settled_world throws a w).
Proof.
  intros Hwf. unfold settled_world.
  destruct (first_failure throws) as [api|];
    [|apply well_formed_after_download; exact Hwf].
  destruct Hwf as [Hu Hn].
  destruct api; split; cbn [stopped_at next_url object_urls next_node body];
    try exact Hu; try exact Hn.
  all: try (intros u Hle; rewrite lookup_insert_ne by lia; apply Hu; lia).
  all: intros n Hin;
    try (apply elem_of_app in Hin as [Hin|Hin];
         [|apply list_elem_of_singleton in Hin; lia]);
    try (apply list_elem_of_filter in Hin as [_ Hin]);
    specialize (Hn n Hin); lia.
Qed.

(** X9. Well-formedness of the document (no object URL registered at or
    above the next URL number, every child of the body below the next node
    number) is kept by any sequence of mounts, whatever fails. *)
Theorem mounts_keep_well_formed {Theme} (throws : BrowserApi → bool)
    (ps : list (ComponentProps Theme)) (w : World) :
  well_formed w → well_formed (exec (mounts throws ps) w).
Proof.
  revert w. induction ps as [|p ps IH]; intros w Hwf; [exact Hwf|].
  rewrite mounts_cons. apply IH.
  destruct (mount_fields throws p w) as (_ & _ & H3 & H4 & _ & H6 & H7 & _).
  cbv zeta in *.
  destruct (well_formed_settled throws (args p) w Hwf) as [Hu Hn].
  split.
  - intros u. rewrite H4, H6. apply Hu.
  - intros n. rewrite H3, H7. apply Hn.
Qed.

Lemma mounts_keep_well_formed_witness :
  well_formed empty_world ∧
  well_formed (exec (mounts click_fails [csv_props; csv_props]) empty_world).
Proof.
  assert (Hwf : well_formed empty_world).
  { split; [intros u _; reflexivity | intros n Hn; inversion Hn]. }
  split; [exact Hwf|].
  apply (mounts_keep_well_formed click_fails [csv_props; csv_props] empty_world).
  exact Hwf.
Defined.

Lemma mounts_trace_reliable {Theme} (throws : BrowserApi → bool)
    (ps : list (ComponentProps Theme)) (w : World) :
  reliable throws →
  ∃ d, trace (exec (mounts throws ps) w) = trace w ++ d ∧
       host_messages d = flat_map (fun _ => [ComponentValue 1; FrameHeight 0]) ps.
Proof.
  intros Hok. revert w. induction ps as [|p ps IH]; intros w.
  - exists []. split; [symmetry; apply app_nil_r | reflexivity].
  - rewrite mounts_cons. destruct (IH (exec (mount throws p) w)) as (d & Hd & Hm).
    destruct (mount_reliable throws p w Hok) as (Ht & _). cbv zeta in Ht.
    exists ((download_events (args p) (next_url w) (next_node w) ++ [EvSetFrameHeight 0]) ++ d).
    split.
    + rewrite Hd, Ht. cbn [after_download trace]. rewrite <- !app_assoc. reflexivity.
    + unfold host_messages in *. rewrite omap_app, Hm. reflexivity.
Qed.

Lemma component_values_per_mount {Theme} (ps : list (ComponentProps Theme)) :
  component_values (flat_map (fun _ => [ComponentValue 1; FrameHeight 0]) ps)
  = map (fun _ => 1) ps.
Proof.
  induction ps as [|p ps IH]; [reflexivity|].
  cbn [flat_map map]. unfold component_values in *.
  rewrite omap_app, IH. reflexivity.
Qed.

(** X10. With a browser that does not fail, mounting the component several
    times in a row saves one file per mount, in mount order, reports the
    component value 1 once per mount and nothing else as a component
    value, and uses a new object URL and a new element each time. *)
Theorem each_mount_downloads_once {Theme} (throws : BrowserApi → bool)
    (ps : list (ComponentProps Theme)) (w : World) :
  reliable throws →
  let w' := exec (mounts throws ps) w in
  downloads w' = downloads w ++ map (fun p => saved_file (args p)) ps ∧
  component_values (host_messages (new_events w w')) = map (fun _ => 1) ps ∧
  next_url w' = (next_url w + length ps)%nat ∧
  next_node w' = (next_node w + length ps)%nat.
Proof.
  intros Hok. cbv zeta. split; [|split].
  - revert w. induction ps as [|p ps IH]; intros w.
    + symmetry. apply app_nil_r.
    + rewrite mounts_cons, IH.
      destruct (mount_reliable throws p w Hok) as (_ & Hd & _). cbv zeta in Hd.
      rewrite Hd. cbn [after_download downloads map]. rewrite <- app_assoc. reflexivity.
  - destruct (mounts_trace_reliable throws ps w Hok) as (d & Hd & Hm).
    rewrite (new_events_app _ _ _ Hd), Hm. apply component_values_per_mount.
  - revert w. induction ps as [|p ps IH]; intros w.
    + cbn. split; lia.
    + rewrite mounts_cons. destruct (IH (exec (mount throws p) w)) as [IH1 IH2].
      destruct (mount_reliable throws p w Hok) as (_ & _ & _ & _ & _ & H6 & H7).
      cbv zeta in H6, H7. rewrite IH1, IH2, H6, H7.
      cbn [after_download next_url next_node length]. split; lia.
Qed.

Lemma each_mount_downloads_once_witness :
  reliable no_failures ∧
  downloads (exec (mounts no_failures [csv_props; csv_props; csv_props]) empty_world)
  = downloads empty_world ++
    map (fun p => saved_file (args p)) [csv_props; csv_props; csv_props].
Proof.
  split; [intros api; reflexivity|].
  apply (each_mount_downloads_once no_failures [csv_props; csv_props; csv_props] empty_world).
  intros api. reflexivity.
Defined.

(** X11. The rejection is never handled: starting from an empty microtask
    queue, a mount leaves the queue empty and adds to the unhandled
    rejections exactly the failure of the first failing call, or nothing
    when no call fails. *)
Theorem rejection_stays_unhandled {Theme} (throws : BrowserApi → bool)
    (props : ComponentProps Theme) (w : World) :
  microtasks w = [] →
  let w' := exec (mount throws props) w in
  microtasks w' = [] ∧
  unhandled w' = unhandled w ++
    match first_failure throws with
    | Some api => [BrowserFailure api]
    | None => []
    end.
Proof.
  intros Hq. cbv zeta.
  destruct (mount_fields throws props w) as (_ & _ & _ & _ & _ & _ & _ & H8).
  cbv zeta in H8. split; [exact H8|].
  pose proof (triggerDownload_first_failure throws (args props) w) as H.
  assert (Hm : ∀ api, microtasks (stopped_at api (args props) w) = microtasks w
                      ∧ unhandled (stopped_at api (args props) w) = unhandled w).
  { intros api. destruct api; split; reflexivity. }
  unfold exec.
  destruct (first_failure throws) as [api|];
    rewrite (mount_eq throws props w _ _ H); cbn [snd];
    unfold flush_microtasks, modify, after_effect, exec;
    cbn [snd microtasks emit enqueue].
  - destruct (Hm api) as [Hm1 Hm2]. rewrite Hm1, Hq. cbn. rewrite Hm2. reflexivity.
  - cbn [after_download microtasks]. rewrite Hq. cbn. rewrite app_nil_r. reflexivity.
Qed.

Lemma rejection_stays_unhandled_witness :
  microtasks empty_world = [] ∧
  unhandled (exec (mount click_fails csv_props) empty_world)
  = unhandled empty_world ++
    match first_failure click_fails with
    | Some api => [BrowserFailure api]
    | None => []
    end.
Proof.
  split; [reflexivity|].
  apply (rejection_stays_unhandled click_fails csv_props empty_world).
  reflexivity.
Defined.
